(** * Topic & Skill Service: a shallow embedding of [app.py]

    The Flask handlers of [create_app] are modelled as functions on an
    explicit database state.  Each handler takes the request data and the
    current [db] and returns the response together with the database after
    the request.  The ORM classes [Topic] and [Skill] live in [models.py];
    the handlers only use their columns, which appear here as record fields.
    Text is modelled over 8-bit code points. *)

From Stdlib Require Import ZArith List String Ascii Bool Lia Sorted Permutation.
Import ListNotations.

Local Open Scope string_scope.
Local Open Scope list_scope.

(** ** Python text helpers *)

(** [str.isspace] for one code point below 256. *)
Definition is_space (c : ascii) : bool :=
  let n := nat_of_ascii c in
  (((9 <=? n) && (n <=? 13)) || ((28 <=? n) && (n <=? 32))
   || (n =? 133) || (n =? 160))%nat.

Fixpoint lstrip (s : string) : string :=
  match s with
  | "" => ""
  | String c r => if is_space c then lstrip r else s
  end.

Fixpoint rstrip (s : string) : string :=
  match s with
  | "" => ""
  | String c r =>
      match rstrip r with
      | "" => if is_space c then "" else String c ""
      | r' => String c r'
      end
  end.

(** [s.strip()] *)
Definition strip (s : string) : string := rstrip (lstrip s).

(** Truth value of a Python string. *)
Definition nonempty (s : string) : bool :=
  match s with "" => false | String _ _ => true end.

(** Truth value of a Python value that is [None] or a string. *)
Definition truthy (v : option string) : bool :=
  match v with Some s => nonempty s | None => false end.

(** [v or d] where [d] is a string. *)
Definition py_or (v : option string) (d : string) : string :=
  match v with
  | Some s => if nonempty s then s else d
  | None => d
  end.

(** [v or w] where both sides may be [None]. *)
Definition py_or_opt (v w : option string) : option string :=
  if truthy v then v else w.

(** ** JSON payloads

    [request.get_json(silent=True) or {}] is a dictionary.  The values the
    handlers read are strings or null. *)

Inductive json : Type :=
| JNull
| JStr (s : string).

Definition payload : Type := list (string * json).

Fixpoint lookup (k : string) (p : payload) : option json :=
  match p with
  | [] => None
  | (k', v) :: r => if (k' =? k)%string then Some v else lookup k r
  end.

Definition py_of_json (v : json) : option string :=
  match v with JNull => None | JStr s => Some s end.

(** [payload.get(k)] *)
Definition get (p : payload) (k : string) : option string :=
  match lookup k p with
  | Some v => py_of_json v
  | None => None
  end.

(** [payload.get(k, d)] *)
Definition get_default (p : payload) (k : string) (d : option string)
  : option string :=
  match lookup k p with
  | Some v => py_of_json v
  | None => d
  end.

(** ** Rows and the database *)

(** Modelled from the spec: the [Topic] model of [models.py], which is not
    part of the sources at hand.  Its columns are the ones the handlers
    read and write: identifier, name, optional description and optional
    reference to a parent Topic. *)
Record Topic : Type := mkTopic {
  t_id : string;
  t_name : string;
  t_description : option string;
  t_parent_topic_id : option string
}.

(** Modelled from the spec: the [Skill] model of [models.py]: identifier,
    name, reference to a Topic and difficulty.  The reference holds
    whatever the handler assigns, [None] included. *)
Record Skill : Type := mkSkill {
  s_id : string;
  s_name : string;
  s_topic_id : option string;
  s_difficulty : string
}.

(** Modelled from the spec: the storage behind [db.session].  The Storage
    Interface keeps records and holds no business rules, so the two
    tables are plain lists of rows, in physical row order, with no
    constraint of their own. *)
Record db : Type := mkDb {
  topics : list Topic;
  skills : list Skill
}.

Definition empty_db : db := mkDb [] [].

(** [Topic.query.get(id)] *)
Definition topic_get (i : string) (d : db) : option Topic :=
  find (fun t => (t_id t =? i)%string) (topics d).

(** [Skill.query.get(id)] *)
Definition skill_get (i : string) (d : db) : option Skill :=
  find (fun k => (s_id k =? i)%string) (skills d).

(** [db.session.add(t); db.session.commit()] *)
Definition add_topic (t : Topic) (d : db) : db :=
  mkDb (topics d ++ [t]) (skills d).

Definition add_skill (k : Skill) (d : db) : db :=
  mkDb (topics d) (skills d ++ [k]).

(** Attribute assignment on a loaded row followed by [commit]: the row with
    that primary key is rewritten. *)
Definition put_topic (t : Topic) (d : db) : db :=
  mkDb (map (fun x => if (t_id x =? t_id t)%string then t else x) (topics d))
       (skills d).

Definition put_skill (k : Skill) (d : db) : db :=
  mkDb (topics d)
       (map (fun x => if (s_id x =? s_id k)%string then k else x) (skills d)).

(** [db.session.delete(t); db.session.commit()] *)
Definition drop_topic (t : Topic) (d : db) : db :=
  mkDb (filter (fun x => negb (t_id x =? t_id t)%string) (topics d))
       (skills d).

Definition drop_skill (k : Skill) (d : db) : db :=
  mkDb (topics d)
       (filter (fun x => negb (s_id x =? s_id k)%string) (skills d)).

(** Truth value of [Topic.query.get(v)]; a [None] key finds no row. *)
Definition topic_exists (v : option string) (d : db) : bool :=
  match v with
  | Some i => match topic_get i d with Some _ => true | None => false end
  | None => false
  end.

(** SQL [column == value]: a NULL column equals nothing. *)
Definition col_eq (v : option string) (i : string) : bool :=
  match v with
  | Some s => (s =? i)%string
  | None => false
  end.

(** [db.session.query(exists().where(Skill.topic_id == id)).scalar()] *)
Definition has_skills (i : string) (d : db) : bool :=
  existsb (fun k => col_eq (s_topic_id k) i) (skills d).

(** ** Responses *)

Inductive error : Type :=
| NotFound
| ValidationError
| Conflict.

Definition status_of (e : error) : Z :=
  match e with
  | NotFound => 404
  | ValidationError => 422
  | Conflict => 409
  end%Z.

Inductive response (A : Type) : Type :=
| Ok (status : Z) (body : A)
| Fail (e : error) (msg : string).

Arguments Ok {A} status body.
Arguments Fail {A} e msg.

Definition is_fail {A} (r : response A) : bool :=
  match r with Fail _ _ => true | Ok _ _ => false end.


(** ** Topic handlers *)

(** POST /topics.  [new_id] is the primary key the model generates for the
    new row. *)
Definition create_topic (new_id : string) (p : payload) (d : db)
  : response Topic * db :=
  let name := strip (py_or (get p "name") "") in
  let description := get p "description" in
  let parent_id := get p "parentTopicID" in
  if negb (nonempty name) then
    (Fail ValidationError "Field 'name' is required", d)
  else if truthy parent_id && negb (topic_exists parent_id d) then
    (Fail ValidationError "parentTopicID not found", d)
  else
    let t := mkTopic new_id name description parent_id in
    (Ok 201%Z t, add_topic t d).

(** PUT /topics/<id> *)
Definition update_topic (id : string) (p : payload) (d : db)
  : response Topic * db :=
  match topic_get id d with
  | None => (Fail NotFound "Topic not found", d)
  | Some t =>
      let name := strip (py_or (get p "name") (t_name t)) in
      let description := get_default p "description" (t_description t) in
      let parent_id := get_default p "parentTopicID" (t_parent_topic_id t) in
      if truthy parent_id && negb (topic_exists parent_id d) then
        (Fail ValidationError "parentTopicID not found", d)
      else
        let t' := mkTopic (t_id t) name description parent_id in
        (Ok 200%Z t', put_topic t' d)
  end.

(** DELETE /topics/<id> *)
Definition delete_topic (id : string) (d : db) : response unit * db :=
  match topic_get id d with
  | None => (Fail NotFound "Topic not found", d)
  | Some t =>
      if has_skills id d then
        (Fail Conflict "Topic has skills; move or delete skills first", d)
      else
        (Ok 204%Z tt, drop_topic t d)
  end.

(** GET /topics/<id> *)
Definition get_topic (id : string) (d : db) : response Topic :=
  match topic_get id d with
  | None => Fail NotFound "Topic not found"
  | Some t => Ok 200%Z t
  end.

(** ** Skill handlers *)

(** POST /skills *)
Definition create_skill (new_id : string) (p : payload) (d : db)
  : response Skill * db :=
  let name := strip (py_or (get p "name") "") in
  let topic_id := py_or_opt (get p "topicID") (get p "topicId") in
  let difficulty := strip (py_or (get p "difficulty") "beginner") in
  if negb (nonempty name) then
    (Fail ValidationError "Field 'name' is required", d)
  else if negb (truthy topic_id) then
    (Fail ValidationError "Field 'topicID' is required", d)
  else if negb (topic_exists topic_id d) then
    (Fail ValidationError "topicID not found", d)
  else
    let k := mkSkill new_id name topic_id difficulty in
    (Ok 201%Z k, add_skill k d).

(** PUT /skills/<id> *)
Definition update_skill (id : string) (p : payload) (d : db)
  : response Skill * db :=
  match skill_get id d with
  | None => (Fail NotFound "Skill not found", d)
  | Some k =>
      let name := strip (py_or (get p "name") (s_name k)) in
      let topic_id :=
        get_default p "topicID" (get_default p "topicId" (s_topic_id k)) in
      let difficulty := strip (py_or (get p "difficulty") (s_difficulty k)) in
      if negb (topic_exists topic_id d) then
        (Fail ValidationError "topicID not found", d)
      else
        let k' := mkSkill (s_id k) name topic_id difficulty in
        (Ok 200%Z k', put_skill k' d)
  end.

(** DELETE /skills/<id> *)
Definition delete_skill (id : string) (d : db) : response unit * db :=
  match skill_get id d with
  | None => (Fail NotFound "Skill not found", d)
  | Some k => (Ok 204%Z tt, drop_skill k d)
  end.

(** GET /skills/<id> *)
Definition get_skill (id : string) (d : db) : response Skill :=
  match skill_get id d with
  | None => Fail NotFound "Skill not found"
  | Some k => Ok 200%Z k
  end.

(** ** Listing: search, filter, order, page *)

(** Case folding of one code point below 256, as the database's [lower]
    does it: the letters A-Z and the Latin-1 capitals (192-214 and
    216-222) move up by 32, every other code point stays. *)
Definition lower (c : ascii) : ascii :=
  let n := nat_of_ascii c in
  if (((65 <=? n) && (n <=? 90))
      || ((192 <=? n) && (n <=? 214))
      || ((216 <=? n) && (n <=? 222)))%nat
  then ascii_of_nat (n + 32) else c.


(** A LIKE pattern, read left to right: [%] stands for any run of
    characters, [_] for any one character, and a backslash makes the next
    character literal. *)
Inductive tok : Type :=
| AnySeq
| AnyChar
| Lit (c : ascii).

(** A pattern that stops right after a backslash is refused by the
    database; the handlers' patterns end in [%], so that case never comes
    up and is read here as the end of the pattern. *)
Fixpoint like_tokens (p : string) : list tok :=
  match p with
  | "" => []
  | String c r =>
      if (c =? "\")%char then
        match r with
        | "" => []
        | String e r' => Lit e :: like_tokens r'
        end
      else if (c =? "%")%char then AnySeq :: like_tokens r
      else if (c =? "_")%char then AnyChar :: like_tokens r
      else Lit c :: like_tokens r
  end.

Fixpoint matches (ts : list tok) (s : string) {struct ts} : bool :=
  match ts with
  | [] => negb (nonempty s)
  | AnySeq :: ts' =>
      (fix skip (s : string) : bool :=
         matches ts' s
         || match s with
            | "" => false
            | String _ s' => skip s'
            end) s
  | AnyChar :: ts' =>
      match s with
      | "" => false
      | String _ s' => matches ts' s'
      end
  | Lit c :: ts' =>
      match s with
      | "" => false
      | String x s' => (lower c =? lower x)%char && matches ts' s'
      end
  end.

(** [column.ilike(pattern)] *)
Definition ilike (s pattern : string) : bool :=
  matches (like_tokens pattern) s.

(** [ORDER BY key ASC].  The query names no second key, so the database
    is free in how it orders rows of equal key; this function keeps them
    in table order, which is one of the orders it may choose.  The
    theorems on listings below hold for every such order. *)
Fixpoint insert_by {A : Type} (key : A -> string) (x : A) (l : list A)
  : list A :=
  match l with
  | [] => [x]
  | y :: r =>
      if (key x <=? key y)%string then x :: l else y :: insert_by key x r
  end.

Definition order_by {A : Type} (key : A -> string) (l : list A) : list A :=
  fold_right (insert_by key) [] l.

(** The largest value of the database's 64-bit integer. *)
Definition max_bigint : Z := 9223372036854775807.

(** [.limit(limit).offset(offset).all()]: PostgreSQL refuses a LIMIT or
    OFFSET that is negative or does not fit its 64-bit integer, and the
    request then produces no listing.  Otherwise [offset] rows are
    skipped and at most [limit] rows returned; both counts are capped at
    the number of rows, which changes nothing and keeps the function
    computable for large values. *)
Definition fetch {A : Type} (limit offset : Z) (rows : list A)
  : option (list A) :=
  if ((limit <? 0) || (offset <? 0)
      || (max_bigint <? limit) || (max_bigint <? offset))%Z
  then None
  else
    let n := Z.of_nat (List.length rows) in
    Some (firstn (Z.to_nat (Z.min limit n))
            (skipn (Z.to_nat (Z.min offset n)) rows)).

(** [min(int(request.args.get("limit", 50)), 200)] *)
Definition clamp_limit (arg : option Z) : Z :=
  Z.min (match arg with Some n => n | None => 50 end) 200.

(** [max(int(request.args.get("offset", 0)), 0)] *)
Definition clamp_offset (arg : option Z) : Z :=
  Z.max (match arg with Some n => n | None => 0 end) 0.

(** The JSON body of a listing. *)
Record listing (A : Type) : Type := mkListing {
  data : list A;
  total : nat;
  meta_limit : Z;
  meta_offset : Z
}.

Arguments mkListing {A} data total meta_limit meta_offset.
Arguments data {A} l.
Arguments total {A} l.
Arguments meta_limit {A} l.
Arguments meta_offset {A} l.

(** The text holds no NUL character (code point 0). *)
Fixpoint no_nul (s : string) : bool :=
  match s with
  | "" => true
  | String c r => negb (c =? "000")%char && no_nul r
  end.

(** The database driver refuses a text parameter that holds a NUL
    character, and the request then produces no listing.  An absent
    parameter is not sent. *)
Definition accepts (q fk : option string) : bool :=
  no_nul (match q with Some s => s | None => "" end)
  && no_nul (match fk with Some s => s | None => "" end).

(** [list_topics] and [list_skills] are the same text over two models: the
    section takes the model's [name] column and its foreign-key column. *)
Section Listing.
Context {A : Type}.
Variable name : A -> string.
Variable ref : A -> option string.

(** [Model.query] after the two optional filters. *)
Definition select (q fk : option string) (rows : list A) : list A :=
  let query := rows in
  let query :=
    if truthy q then
      filter (fun x => ilike (name x) ("%" ++ py_or q "" ++ "%")%string) query
    else query in
  if truthy fk then
    filter (fun x => col_eq (ref x) (py_or fk "")) query
  else query.

Definition list_rows (q fk : option string) (limit offset : option Z)
    (rows : list A) : option (listing A) :=
  let limit := clamp_limit limit in
  let offset := clamp_offset offset in
  let query := select q fk rows in
  let total := List.length query in
  if accepts q fk then
    match fetch limit offset (order_by name query) with
    | Some items => Some (mkListing items total limit offset)
    | None => None
    end
  else None.
End Listing.

(** GET /topics *)
Definition list_topics (q parent_id : option string) (limit offset : option Z)
    (d : db) : option (listing Topic) :=
  list_rows t_name t_parent_topic_id q parent_id limit offset (topics d).

(** GET /skills *)
Definition list_skills (q topic_id : option string) (limit offset : option Z)
    (d : db) : option (listing Skill) :=
  list_rows s_name s_topic_id q topic_id limit offset (skills d).

(** ** Requests and reachable states *)

Inductive request : Type :=
| CreateTopic (new_id : string) (p : payload)
| UpdateTopic (id : string) (p : payload)
| DeleteTopic (id : string)
| CreateSkill (new_id : string) (p : payload)
| UpdateSkill (id : string) (p : payload)
| DeleteSkill (id : string).

(** What a response looks like from outside, whatever its body. *)
Inductive outcome : Type :=
| Done (status : Z)
| Refused (e : error).

Definition outcome_of {A : Type} (r : response A) : outcome :=
  match r with
  | Ok st _ => Done st
  | Fail e _ => Refused e
  end.

Definition handle (r : request) (d : db) : outcome * db :=
  match r with
  | CreateTopic i p => let (x, d') := create_topic i p d in (outcome_of x, d')
  | UpdateTopic i p => let (x, d') := update_topic i p d in (outcome_of x, d')
  | DeleteTopic i => let (x, d') := delete_topic i d in (outcome_of x, d')
  | CreateSkill i p => let (x, d') := create_skill i p d in (outcome_of x, d')
  | UpdateSkill i p => let (x, d') := update_skill i p d in (outcome_of x, d')
  | DeleteSkill i => let (x, d') := delete_skill i d in (outcome_of x, d')
  end.

(** A generated primary key is not already in its table. *)
Definition fresh (r : request) (d : db) : Prop :=
  match r with
  | CreateTopic i _ => topic_get i d = None
  | CreateSkill i _ => skill_get i d = None
  | _ => True
  end.

Inductive reachable : db -> Prop :=
| reach_empty : reachable empty_db
| reach_step d r :
    reachable d -> fresh r d -> reachable (snd (handle r d)).

(** ** Vocabulary of the specification *)

(** A Topic with identifier [i] is stored. *)
Definition topic_stored (i : string) (d : db) : Prop :=
  exists t, In t (topics d) /\ t_id t = i.

(** Some stored Skill has [topicID] equal to [i]. *)
Definition skill_refers (i : string) (d : db) : Prop :=
  exists k, In k (skills d) /\ s_topic_id k = Some i.

(** The text a caller supplied for a field; nothing counts as empty. *)
Definition given (v : option string) : string :=
  match v with Some s => s | None => "" end.

(** Every stored Skill's [topicID] names a stored Topic. *)
Definition skills_attached (d : db) : Prop :=
  forall k, In k (skills d) ->
    exists i, s_topic_id k = Some i /\ topic_stored i d.

(** Every stored Topic whose [parentTopicID] is set names a stored Topic. *)
Definition parents_exist (d : db) : Prop :=
  forall t i, In t (topics d) -> t_parent_topic_id t = Some i ->
    topic_stored i d.

(** Every stored Topic whose [parentTopicID] is a non-empty identifier
    names a stored Topic. *)
Definition parents_set_exist (d : db) : Prop :=
  forall t i, In t (topics d) -> t_parent_topic_id t = Some i -> i <> "" ->
    topic_stored i d.

(** The parent rule as the specification words it: no sequence of
    requests leaves a Topic whose [parentTopicID] names no stored Topic. *)
Definition parent_rule_as_stated : Prop :=
  forall d, reachable d -> parents_exist d.

(** The request does not delete a Topic that another stored Topic names
    as its parent. *)
Definition spares_children (r : request) (d : db) : Prop :=
  match r with
  | DeleteTopic i =>
      forall t, In t (topics d) -> t_id t <> i ->
        t_parent_topic_id t <> Some i
  | _ => True
  end.

(** The states reached from the empty database by requests none of which
    deletes the parent of another stored Topic. *)
Inductive reachable_sparing : db -> Prop :=
| spare_empty : reachable_sparing empty_db
| spare_step d r :
    reachable_sparing d -> fresh r d -> spares_children r d ->
    reachable_sparing (snd (handle r d)).

(** Every stored Topic name is already trimmed. *)
Definition names_trimmed (d : db) : Prop :=
  forall t, In t (topics d) -> strip (t_name t) = t_name t.




(** Neither spelling of the key carries a non-empty identifier. *)
Definition topic_id_missing (p : payload) : Prop :=
  forall i, i <> "" ->
    get p "topicID" <> Some i /\ get p "topicId" <> Some i.

(** A reference that is set to a non-empty identifier no stored Topic has. *)
Definition dangling (v : option string) (d : db) : Prop :=
  exists i, v = Some i /\ i <> "" /\ ~ topic_stored i d.






(** The page cut out of the ordered rows. *)
Definition window {A : Type} (limit offset : Z) (rows : list A) : list A :=
  firstn (Z.to_nat limit) (skipn (Z.to_nat offset) rows).





(** ** Sample requests and states *)

Definition math_payload : payload := [("name", JStr "Math")].

Definition algebra_payload : payload :=
  [("name", JStr "Algebra"); ("parentTopicID", JStr "T1")].

Definition two_topics : db :=
  snd (handle (CreateTopic "T2" algebra_payload)
         (snd (handle (CreateTopic "T1" math_payload) empty_db))).


Definition one_topic : db :=
  snd (handle (CreateTopic "T1" math_payload) empty_db).





Definition addition_payload : payload :=
  [("name", JStr "Addition"); ("topicID", JStr "T1")].

Definition with_skill : db :=
  snd (handle (CreateSkill "S1" addition_payload) two_topics).






(** ** Further vocabulary *)

(** The identifier a request is about: the generated one for a create,
    the one in the path otherwise. *)
Definition target (r : request) : string :=
  match r with
  | CreateTopic i _ | UpdateTopic i _ | DeleteTopic i
  | CreateSkill i _ | UpdateSkill i _ | DeleteSkill i => i
  end.

(** The request goes to one of the /topics routes. *)
Definition on_topics (r : request) : bool :=
  match r with
  | CreateTopic _ _ | UpdateTopic _ _ | DeleteTopic _ => true
  | _ => false
  end.

(** No two rows of a table share an identifier. *)
Definition ids_unique (d : db) : Prop :=
  NoDup (map t_id (topics d)) /\ NoDup (map s_id (skills d)).

(** Every stored Skill name and difficulty is already trimmed. *)
Definition skills_trimmed (d : db) : Prop :=
  forall k, In k (skills d) ->
    strip (s_name k) = s_name k /\ strip (s_difficulty k) = s_difficulty k.

(** Every stored name and difficulty is already trimmed. *)
Definition text_trimmed (d : db) : Prop :=
  (forall t, In t (topics d) -> strip (t_name t) = t_name t)
  /\ (forall k, In k (skills d) ->
        strip (s_name k) = s_name k
        /\ strip (s_difficulty k) = s_difficulty k).

(** The [topicID] an update of Skill [k] resolves to. *)
Definition resolved_topic (p : payload) (k : Skill) : option string :=
  get_default p "topicID" (get_default p "topicId" (s_topic_id k)).




Definition null_topic_payload : payload := [("topicID", JNull)].

(** ** Basic facts about the tables *)

Lemma topic_get_some i d t :
  topic_get i d = Some t -> In t (topics d) /\ t_id t = i.
Proof.
  unfold topic_get. intros H. apply find_some in H.
  destruct H as [Hin Heq]. split; [exact Hin|].
  now apply String.eqb_eq.
Qed.

Lemma topic_get_none i d :
  topic_get i d = None <-> ~ topic_stored i d.
Proof.
  unfold topic_get, topic_stored. split.
  - intros H [t [Hin Hid]].
    pose proof (find_none _ _ H t Hin) as Hn. cbn in Hn.
    rewrite Hid, String.eqb_refl in Hn. discriminate.
  - intros H. destruct (find _ _) as [t|] eqn:E; [|reflexivity].
    exfalso. apply H. apply find_some in E. destruct E as [Hin Heq].
    exists t. split; [exact Hin|]. now apply String.eqb_eq.
Qed.

Lemma topic_get_stored i d :
  topic_stored i d <-> exists t, topic_get i d = Some t.
Proof.
  split.
  - intros H. destruct (topic_get i d) as [t|] eqn:E.
    + now exists t.
    + apply topic_get_none in E. contradiction.
  - intros [t H]. apply topic_get_some in H. now exists t.
Qed.

Lemma topic_exists_true v d :
  topic_exists v d = true <-> exists i, v = Some i /\ topic_stored i d.
Proof.
  unfold topic_exists. split.
  - destruct v as [i|]; [|discriminate].
    destruct (topic_get i d) as [t|] eqn:E; [|discriminate].
    intros _. exists i. split; [reflexivity|].
    apply topic_get_stored. now exists t.
  - intros [i [-> H]]. apply topic_get_stored in H.
    destruct H as [t ->]. reflexivity.
Qed.

Lemma col_eq_true v i : col_eq v i = true <-> v = Some i.
Proof.
  destruct v as [s|]; cbn.
  - rewrite String.eqb_eq. split; congruence.
  - split; discriminate.
Qed.

Lemma has_skills_true i d :
  has_skills i d = true <-> skill_refers i d.
Proof.
  unfold has_skills, skill_refers. rewrite existsb_exists.
  split; intros [k [Hin H]]; exists k; (split; [exact Hin|]);
    now apply col_eq_true.
Qed.

Lemma has_skills_false i d :
  has_skills i d = false <-> ~ skill_refers i d.
Proof.
  rewrite <- has_skills_true. destruct (has_skills i d); split; congruence.
Qed.

Lemma topic_stored_drop i t d :
  topic_stored i (drop_topic t d) <-> topic_stored i d /\ i <> t_id t.
Proof.
  unfold topic_stored, drop_topic; cbn. split.
  - intros [x [Hin Hid]]. apply filter_In in Hin. destruct Hin as [Hin Hne].
    apply negb_true_iff, String.eqb_neq in Hne.
    split; [now exists x | congruence].
  - intros [[x [Hin Hid]] Hne]. exists x. split; [|exact Hid].
    apply filter_In. split; [exact Hin|].
    apply negb_true_iff, String.eqb_neq. congruence.
Qed.

(** ** Deleting a Topic *)


(** ** Errors write nothing *)

Lemma create_topic_fail_keeps i p d :
  is_fail (fst (create_topic i p d)) = true -> snd (create_topic i p d) = d.
Proof.
  unfold create_topic.
  destruct (negb (nonempty _)); [reflexivity|].
  destruct (truthy _ && negb _); [reflexivity|].
  cbn. discriminate.
Qed.

Lemma update_topic_fail_keeps i p d :
  is_fail (fst (update_topic i p d)) = true -> snd (update_topic i p d) = d.
Proof.
  unfold update_topic.
  destruct (topic_get i d) as [t|]; [|reflexivity].
  destruct (truthy _ && negb _); [reflexivity|].
  cbn. discriminate.
Qed.

Lemma delete_topic_fail_keeps i d :
  is_fail (fst (delete_topic i d)) = true -> snd (delete_topic i d) = d.
Proof.
  unfold delete_topic.
  destruct (topic_get i d) as [t|]; [|reflexivity].
  destruct (has_skills i d); [reflexivity|].
  cbn. discriminate.
Qed.

Lemma create_skill_fail_keeps i p d :
  is_fail (fst (create_skill i p d)) = true -> snd (create_skill i p d) = d.
Proof.
  unfold create_skill.
  destruct (negb (nonempty _)); [reflexivity|].
  destruct (negb (truthy _)); [reflexivity|].
  destruct (negb (topic_exists _ _)); [reflexivity|].
  cbn. discriminate.
Qed.

Lemma update_skill_fail_keeps i p d :
  is_fail (fst (update_skill i p d)) = true -> snd (update_skill i p d) = d.
Proof.
  unfold update_skill.
  destruct (skill_get i d) as [k|]; [|reflexivity].
  destruct (negb (topic_exists _ _)); [reflexivity|].
  cbn. discriminate.
Qed.

Lemma delete_skill_fail_keeps i d :
  is_fail (fst (delete_skill i d)) = true -> snd (delete_skill i d) = d.
Proof.
  unfold delete_skill.
  destruct (skill_get i d) as [k|]; [|reflexivity].
  cbn. discriminate.
Qed.

Lemma outcome_refused {A} (r : response A) e :
  outcome_of r = Refused e -> is_fail r = true.
Proof. destruct r; [discriminate | reflexivity]. Qed.

(** C10.  Whenever a create, update or delete of a Topic or a Skill
    answers with an error (NotFound, ValidationError or Conflict), the
    database after the request is the database before it. *)
Theorem error_leaves_db_unchanged (r : request) (d : db) (e : error) :
  fst (handle r d) = Refused e -> snd (handle r d) = d.
Proof.
  destruct r as [i p|i p|i|i p|i p|i]; cbn [handle].
  - pose proof (create_topic_fail_keeps i p d) as K.
    destruct (create_topic i p d) as [x d']. cbn in *.
    intros H. apply K. now apply outcome_refused in H.
  - pose proof (update_topic_fail_keeps i p d) as K.
    destruct (update_topic i p d) as [x d']. cbn in *.
    intros H. apply K. now apply outcome_refused in H.
  - pose proof (delete_topic_fail_keeps i d) as K.
    destruct (delete_topic i d) as [x d']. cbn in *.
    intros H. apply K. now apply outcome_refused in H.
  - pose proof (create_skill_fail_keeps i p d) as K.
    destruct (create_skill i p d) as [x d']. cbn in *.
    intros H. apply K. now apply outcome_refused in H.
  - pose proof (update_skill_fail_keeps i p d) as K.
    destruct (update_skill i p d) as [x d']. cbn in *.
    intros H. apply K. now apply outcome_refused in H.
  - pose proof (delete_skill_fail_keeps i d) as K.
    destruct (delete_skill i d) as [x d']. cbn in *.
    intros H. apply K. now apply outcome_refused in H.
Qed.

(** ** Clamping of the page parameters *)

(** C7.  [limit] is 50 when absent and otherwise the smaller of the given
    value and 200, so values of 0 or less pass through; [offset] is 0 when
    absent and otherwise the larger of the given value and 0; a listing
    reports exactly these two numbers.  1000 becomes 200 and -5 becomes 0. *)
Theorem clamp_rules :
  clamp_limit None = 50%Z
  /\ (forall n, (n <= 200)%Z -> clamp_limit (Some n) = n)
  /\ (forall n, (200 < n)%Z -> clamp_limit (Some n) = 200%Z)
  /\ (forall n, (n <= 0)%Z -> clamp_limit (Some n) = n)
  /\ clamp_offset None = 0%Z
  /\ (forall n, (0 <= n)%Z -> clamp_offset (Some n) = n)
  /\ (forall n, (n < 0)%Z -> clamp_offset (Some n) = 0%Z)
  /\ clamp_limit (Some 1000%Z) = 200%Z
  /\ clamp_offset (Some (-5)%Z) = 0%Z
  /\ (forall q f l o d r, list_topics q f l o d = Some r ->
        meta_limit r = clamp_limit l /\ meta_offset r = clamp_offset o)
  /\ (forall q f l o d r, list_skills q f l o d = Some r ->
        meta_limit r = clamp_limit l /\ meta_offset r = clamp_offset o).
Proof.
  unfold clamp_limit, clamp_offset.
  repeat match goal with |- _ /\ _ => split end;
    try reflexivity; try (intros; lia).
  - intros q f l o d r. unfold list_topics, list_rows.
    destruct (accepts q f); [|discriminate].
    destruct (fetch _ _ _); [|discriminate].
    intros [= <-]. split; reflexivity.
  - intros q f l o d r. unfold list_skills, list_rows.
    destruct (accepts q f); [|discriminate].
    destruct (fetch _ _ _); [|discriminate].
    intros [= <-]. split; reflexivity.
Qed.

(** ** Skills stay attached to stored Topics *)

Lemma topic_stored_add i t d :
  topic_stored i d -> topic_stored i (add_topic t d).
Proof.
  intros [x [Hin Hid]]. exists x. split; [|exact Hid].
  cbn. apply in_or_app. now left.
Qed.

Lemma put_topic_id t x :
  t_id (if (t_id x =? t_id t)%string then t else x) = t_id x.
Proof.
  destruct (t_id x =? t_id t)%string eqn:E; [|reflexivity].
  apply String.eqb_eq in E. congruence.
Qed.

Lemma topic_stored_put i t d :
  topic_stored i (put_topic t d) <-> topic_stored i d.
Proof.
  unfold topic_stored, put_topic; cbn. split.
  - intros [x [Hin Hid]]. apply in_map_iff in Hin.
    destruct Hin as [y [Hy Hin]]. exists y. split; [exact Hin|].
    rewrite <- Hid, <- Hy. symmetry. apply put_topic_id.
  - intros [x [Hin Hid]].
    exists (if (t_id x =? t_id t)%string then t else x). split.
    + apply in_map_iff. now exists x.
    + rewrite put_topic_id. exact Hid.
Qed.

Lemma create_skill_ok_checked i p d k :
  fst (create_skill i p d) = Ok 201%Z k ->
  exists j, s_topic_id k = Some j /\ topic_stored j d.
Proof.
  unfold create_skill.
  destruct (negb (nonempty _)); [discriminate|].
  destruct (negb (truthy _)); [discriminate|].
  destruct (topic_exists _ d) eqn:E; [|discriminate].
  cbn. intros [= <-]. cbn. now apply topic_exists_true.
Qed.

Lemma update_skill_ok_checked i p d k :
  fst (update_skill i p d) = Ok 200%Z k ->
  exists j, s_topic_id k = Some j /\ topic_stored j d.
Proof.
  unfold update_skill.
  destruct (skill_get i d) as [k0|]; [|discriminate].
  destruct (topic_exists _ d) eqn:E; [|discriminate].
  cbn. intros [= <-]. cbn. now apply topic_exists_true.
Qed.

Lemma delete_topic_ok_guarded i d :
  fst (delete_topic i d) = Ok 204%Z tt -> ~ skill_refers i d.
Proof.
  unfold delete_topic.
  destruct (topic_get i d) as [t|]; [|discriminate].
  destruct (has_skills i d) eqn:E; [discriminate|].
  intros _. now apply has_skills_false.
Qed.

Lemma create_topic_attached i p d :
  skills_attached d -> skills_attached (snd (create_topic i p d)).
Proof.
  intros Inv. unfold create_topic.
  destruct (negb (nonempty _)); [exact Inv|].
  destruct (truthy _ && negb _); [exact Inv|].
  cbn. intros k Hk. destruct (Inv k Hk) as [j [Hj Hs]].
  exists j. split; [exact Hj|]. now apply topic_stored_add.
Qed.

Lemma update_topic_attached i p d :
  skills_attached d -> skills_attached (snd (update_topic i p d)).
Proof.
  intros Inv. unfold update_topic.
  destruct (topic_get i d) as [t|]; [|exact Inv].
  destruct (truthy _ && negb _); [exact Inv|].
  cbn [snd]. intros k Hk. destruct (Inv k Hk) as [j [Hj Hs]].
  exists j. split; [exact Hj|]. now apply topic_stored_put.
Qed.

Lemma delete_topic_attached i d :
  skills_attached d -> skills_attached (snd (delete_topic i d)).
Proof.
  intros Inv. unfold delete_topic.
  destruct (topic_get i d) as [t|] eqn:Eg; [|exact Inv].
  destruct (has_skills i d) eqn:Eh; [exact Inv|].
  apply topic_get_some in Eg. destruct Eg as [_ Hid].
  apply has_skills_false in Eh.
  cbn [snd]. intros k Hk. destruct (Inv k Hk) as [j [Hj Hs]].
  exists j. split; [exact Hj|].
  apply topic_stored_drop. split; [exact Hs|].
  intros ->. apply Eh. exists k. split; [exact Hk|]. now rewrite Hid in Hj.
Qed.

Lemma create_skill_attached i p d :
  skills_attached d -> skills_attached (snd (create_skill i p d)).
Proof.
  intros Inv. unfold create_skill.
  destruct (negb (nonempty _)); [exact Inv|].
  destruct (negb (truthy _)); [exact Inv|].
  destruct (topic_exists _ d) eqn:E; cbn [negb]; [|exact Inv].
  apply topic_exists_true in E.
  cbn. intros k Hk. apply in_app_or in Hk.
  destruct Hk as [Hk|[<-|[]]].
  - exact (Inv k Hk).
  - exact E.
Qed.

Lemma update_skill_attached i p d :
  skills_attached d -> skills_attached (snd (update_skill i p d)).
Proof.
  intros Inv. unfold update_skill.
  destruct (skill_get i d) as [k0|]; [|exact Inv].
  destruct (topic_exists _ d) eqn:E; cbn [negb]; [|exact Inv].
  apply topic_exists_true in E.
  cbn. intros k Hk. apply in_map_iff in Hk.
  destruct Hk as [y [Hy Hin]]. cbn [s_id] in Hy.
  destruct (s_id y =? s_id k0)%string; subst k.
  - exact E.
  - exact (Inv y Hin).
Qed.

Lemma delete_skill_attached i d :
  skills_attached d -> skills_attached (snd (delete_skill i d)).
Proof.
  intros Inv. unfold delete_skill.
  destruct (skill_get i d) as [k0|]; [|exact Inv].
  cbn. intros k Hk. apply filter_In in Hk. exact (Inv k (proj1 Hk)).
Qed.

Lemma handle_attached r d :
  skills_attached d -> skills_attached (snd (handle r d)).
Proof.
  intros Inv. destruct r as [i p|i p|i|i p|i p|i]; cbn [handle].
  - pose proof (create_topic_attached i p d Inv).
    now destruct (create_topic i p d).
  - pose proof (update_topic_attached i p d Inv).
    now destruct (update_topic i p d).
  - pose proof (delete_topic_attached i d Inv).
    now destruct (delete_topic i d).
  - pose proof (create_skill_attached i p d Inv).
    now destruct (create_skill i p d).
  - pose proof (update_skill_attached i p d Inv).
    now destruct (update_skill i p d).
  - pose proof (delete_skill_attached i d Inv).
    now destruct (delete_skill i d).
Qed.

Lemma reachable_attached d : reachable d -> skills_attached d.
Proof.
  induction 1 as [|d r Hr IH Hf].
  - intros k [].
  - now apply handle_attached.
Qed.

(** C2.  In every state reached from the empty database by creates,
    updates and deletes of Topics and Skills, each stored Skill's
    [topicID] names a stored Topic.  The checks that keep it so: a Skill
    create and every Skill update answer with success only when the
    resolved [topicID] names a stored Topic, whether or not the caller
    sent one, and a Topic delete succeeds only when no Skill refers to
    the Topic. *)
Theorem skills_always_attached (d : db) :
  reachable d ->
  skills_attached d
  /\ (forall i p k, fst (create_skill i p d) = Ok 201%Z k ->
        exists j, s_topic_id k = Some j /\ topic_stored j d)
  /\ (forall i p k, fst (update_skill i p d) = Ok 200%Z k ->
        exists j, s_topic_id k = Some j /\ topic_stored j d)
  /\ (forall i, fst (delete_topic i d) = Ok 204%Z tt -> ~ skill_refers i d).
Proof.
  intros Hr. split; [now apply reachable_attached|].
  split; [intros i p k; apply create_skill_ok_checked|].
  split; [intros i p k; apply update_skill_ok_checked|].
  intros i. apply delete_topic_ok_guarded.
Qed.

(** ** Deleting a parent Topic *)

Lemma two_topics_reachable : reachable two_topics.
Proof.
  unfold two_topics.
  apply reach_step; [apply reach_step; [apply reach_empty|]|]; reflexivity.
Qed.

(** C3 in its original wording does not hold: create Topic T1, create
    Topic T2 with parent T1, delete T1.  The delete answers 204, because
    only Skills are looked at, and the state it leaves still stores T2
    with [parentTopicID] T1 although no Topic T1 is stored any more. *)
Lemma delete_parent_leaves_dangling_child :
  fst (handle (DeleteTopic "T1") two_topics) = Done 204%Z
  /\ ~ parent_rule_as_stated.
Proof.
  split; [reflexivity|]. intros H.
  assert (Hr : reachable (snd (handle (DeleteTopic "T1") two_topics)))
    by (apply reach_step; [apply two_topics_reachable | exact I]).
  destruct (H _ Hr (mkTopic "T2" "Algebra" None (Some "T1")) "T1")
    as [x [Hin Hid]].
  - cbn. left. reflexivity.
  - reflexivity.
  - cbn in Hin. destruct Hin as [<-|[]]. discriminate.
Qed.

(** ** Trimming *)

Lemma rstrip_cons c r :
  rstrip (String c r) =
  match rstrip r with
  | "" => if is_space c then "" else String c ""
  | r' => String c r'
  end.
Proof. reflexivity. Qed.

Lemma rstrip_idem s : rstrip (rstrip s) = rstrip s.
Proof.
  induction s as [|c r IH]; [reflexivity|].
  rewrite rstrip_cons. destruct (rstrip r) as [|c' r'] eqn:E.
  - destruct (is_space c) eqn:Ec; [reflexivity|].
    cbn. now rewrite Ec.
  - rewrite rstrip_cons, IH. reflexivity.
Qed.

Lemma rstrip_head c r :
  is_space c = false -> exists r', rstrip (String c r) = String c r'.
Proof.
  intros Hc. rewrite rstrip_cons, Hc.
  destruct (rstrip r) as [|c' r']; eexists; reflexivity.
Qed.

Lemma lstrip_head s :
  lstrip s = "" \/ exists c r, lstrip s = String c r /\ is_space c = false.
Proof.
  induction s as [|c r IH]; [now left|].
  cbn. destruct (is_space c) eqn:Ec; [exact IH|].
  right. now exists c, r.
Qed.

Lemma strip_idem s : strip (strip s) = strip s.
Proof.
  unfold strip.
  assert (H : lstrip (rstrip (lstrip s)) = rstrip (lstrip s)).
  { destruct (lstrip_head s) as [->|[c [r [-> Hc]]]]; [reflexivity|].
    destruct (rstrip_head c r Hc) as [r' ->]. cbn. now rewrite Hc. }
  rewrite H. apply rstrip_idem.
Qed.

Lemma nonempty_false s : nonempty s = false <-> s = "".
Proof. destruct s; split; intros H; try reflexivity; discriminate. Qed.

Lemma nonempty_true s : nonempty s = true <-> s <> "".
Proof.
  destruct s; cbn; split; intros H; try reflexivity; try discriminate.
  now elim H.
Qed.

Lemma py_or_empty v : py_or v "" = given v.
Proof. destruct v as [[|c r]|]; reflexivity. Qed.

Lemma truthy_true v : truthy v = true <-> exists s, v = Some s /\ s <> "".
Proof.
  destruct v as [s|]; cbn.
  - rewrite nonempty_true. split.
    + intros H. now exists s.
    + intros [s' [[= <-] H]]. exact H.
  - split; [discriminate | intros [s [H _]]; discriminate].
Qed.

Lemma truthy_false v : truthy v = false <-> v = None \/ v = Some "".
Proof.
  destruct v as [[|c r]|]; cbn; split; intros H; try reflexivity;
    try discriminate; try (now left); try (now right).
  destruct H as [H|H]; discriminate.
Qed.

(** ** Validation on create *)

Lemma topic_exists_false i d :
  topic_exists (Some i) d = false <-> ~ topic_stored i d.
Proof.
  rewrite <- topic_get_none. cbn.
  destruct (topic_get i d); split; congruence.
Qed.

Lemma dangling_spec v d :
  truthy v && negb (topic_exists v d) = true <-> dangling v d.
Proof.
  unfold dangling. rewrite andb_true_iff, negb_true_iff, truthy_true. split.
  - intros [[s [-> Hs]] He]. exists s.
    split; [reflexivity|]. split; [exact Hs|]. now apply topic_exists_false.
  - intros [i [-> [Hi Hn]]]. split; [now exists i|].
    now apply topic_exists_false.
Qed.

Lemma dangling_dec v d :
  truthy v && negb (topic_exists v d) = false <-> ~ dangling v d.
Proof.
  rewrite <- dangling_spec.
  destruct (truthy v && negb (topic_exists v d)); split; congruence.
Qed.

Lemma create_topic_cases new_id p d :
  let name := strip (given (get p "name")) in
  let t := mkTopic new_id name (get p "description") (get p "parentTopicID") in
  (name = ""
   /\ create_topic new_id p d
      = (Fail ValidationError "Field 'name' is required", d))
  \/ (name <> "" /\ dangling (get p "parentTopicID") d
      /\ create_topic new_id p d
         = (Fail ValidationError "parentTopicID not found", d))
  \/ (name <> "" /\ ~ dangling (get p "parentTopicID") d
      /\ create_topic new_id p d = (Ok 201%Z t, add_topic t d)).
Proof.
  cbn zeta. unfold create_topic. rewrite py_or_empty.
  destruct (nonempty (strip (given (get p "name")))) eqn:En; cbn [negb].
  - apply nonempty_true in En. right.
    destruct (truthy _ && negb _) eqn:Ep.
    + left. apply dangling_spec in Ep. auto.
    + right. apply dangling_dec in Ep. auto.
  - apply nonempty_false in En. left. auto.
Qed.

Lemma py_or_opt_missing p :
  truthy (py_or_opt (get p "topicID") (get p "topicId")) = false <->
  topic_id_missing p.
Proof.
  unfold topic_id_missing, py_or_opt.
  destruct (truthy (get p "topicID")) eqn:Ea.
  - rewrite Ea. apply truthy_true in Ea. destruct Ea as [s [Ea Hs]].
    split; [discriminate|]. intros H. destruct (H s Hs) as [H1 _].
    contradiction.
  - apply truthy_false in Ea. rewrite truthy_false. split.
    + intros Hb i Hi. split.
      * destruct Ea as [->| ->]; congruence.
      * destruct Hb as [->| ->]; congruence.
    + intros H. destruct (get p "topicId") as [[|c r]|]; auto.
      destruct (H (String c r)) as [_ H2]; [discriminate|]. now elim H2.
Qed.

Lemma create_skill_cases new_id p d :
  let name := strip (given (get p "name")) in
  let tid := py_or_opt (get p "topicID") (get p "topicId") in
  let k := mkSkill new_id name tid
             (strip (py_or (get p "difficulty") "beginner")) in
  (name = ""
   /\ create_skill new_id p d
      = (Fail ValidationError "Field 'name' is required", d))
  \/ (name <> "" /\ topic_id_missing p
      /\ create_skill new_id p d
         = (Fail ValidationError "Field 'topicID' is required", d))
  \/ (name <> "" /\ ~ topic_id_missing p
      /\ (exists i, tid = Some i /\ ~ topic_stored i d)
      /\ create_skill new_id p d
         = (Fail ValidationError "topicID not found", d))
  \/ (name <> "" /\ ~ topic_id_missing p
      /\ (exists i, tid = Some i /\ topic_stored i d)
      /\ create_skill new_id p d = (Ok 201%Z k, add_skill k d)).
Proof.
  cbn zeta. unfold create_skill. rewrite py_or_empty.
  destruct (nonempty (strip (given (get p "name")))) eqn:En; cbn [negb].
  - apply nonempty_true in En. right.
    destruct (truthy (py_or_opt _ _)) eqn:Et; cbn [negb].
    + assert (Hm : ~ topic_id_missing p).
      { intros Hm. apply py_or_opt_missing in Hm. congruence. }
      right. apply truthy_true in Et. destruct Et as [i [Ei Hi]].
      rewrite Ei. destruct (topic_exists (Some i) d) eqn:Ee; cbn [negb].
      * right. apply topic_exists_true in Ee.
        destruct Ee as [j [[= <-] Hs]].
        split; [exact En|]. split; [exact Hm|]. split; [|reflexivity].
        now exists i.
      * left. apply topic_exists_false in Ee.
        split; [exact En|]. split; [exact Hm|]. split; [|reflexivity].
        now exists i.
    + left. apply py_or_opt_missing in Et. auto.
  - apply nonempty_false in En. left. auto.
Qed.



(** ** Partial update of a Topic *)

Lemma update_topic_cases id p d t :
  topic_get id d = Some t ->
  let pid := get_default p "parentTopicID" (t_parent_topic_id t) in
  let t' := mkTopic (t_id t) (strip (py_or (get p "name") (t_name t)))
              (get_default p "description" (t_description t)) pid in
  (dangling pid d
   /\ update_topic id p d
      = (Fail ValidationError "parentTopicID not found", d))
  \/ (~ dangling pid d
      /\ update_topic id p d = (Ok 200%Z t', put_topic t' d)).
Proof.
  intros Hg. cbn zeta. unfold update_topic. rewrite Hg.
  destruct (truthy _ && negb _) eqn:Ep.
  - left. apply dangling_spec in Ep. auto.
  - right. apply dangling_dec in Ep. auto.
Qed.

Lemma create_topic_trimmed i p d :
  names_trimmed d -> names_trimmed (snd (create_topic i p d)).
Proof.
  intros Inv.
  destruct (create_topic_cases i p d)
    as [[Hn ->]|[[Hn [Hd ->]]|[Hn [Hd ->]]]]; cbn [snd]; try exact Inv.
  intros t Ht. cbn in Ht. apply in_app_or in Ht.
  destruct Ht as [Ht|[<-|[]]]; [exact (Inv t Ht)|].
  cbn. apply strip_idem.
Qed.

Lemma update_topic_trimmed i p d :
  names_trimmed d -> names_trimmed (snd (update_topic i p d)).
Proof.
  intros Inv. destruct (topic_get i d) as [t|] eqn:Eg.
  - destruct (update_topic_cases i p d t Eg) as [[Hd ->]|[Hd ->]];
      cbn [snd]; [exact Inv|].
    intros x Hx. cbn in Hx. apply in_map_iff in Hx.
    destruct Hx as [y [Hy Hin]].
    destruct (t_id y =? t_id t)%string; subst x.
    + cbn. apply strip_idem.
    + exact (Inv y Hin).
  - unfold update_topic. rewrite Eg. exact Inv.
Qed.

Lemma delete_topic_trimmed i d :
  names_trimmed d -> names_trimmed (snd (delete_topic i d)).
Proof.
  intros Inv. unfold delete_topic.
  destruct (topic_get i d) as [t|]; [|exact Inv].
  destruct (has_skills i d); [exact Inv|].
  cbn. intros x Hx. apply filter_In in Hx. exact (Inv x (proj1 Hx)).
Qed.

Lemma create_skill_topics i p d :
  topics (snd (create_skill i p d)) = topics d.
Proof.
  unfold create_skill.
  destruct (negb (nonempty _)); [reflexivity|].
  destruct (negb (truthy _)); [reflexivity|].
  destruct (negb (topic_exists _ _)); reflexivity.
Qed.

Lemma update_skill_topics i p d :
  topics (snd (update_skill i p d)) = topics d.
Proof.
  unfold update_skill.
  destruct (skill_get i d) as [k|]; [|reflexivity].
  destruct (negb (topic_exists _ _)); reflexivity.
Qed.

Lemma delete_skill_topics i d :
  topics (snd (delete_skill i d)) = topics d.
Proof.
  unfold delete_skill. destruct (skill_get i d) as [k|]; reflexivity.
Qed.

Lemma handle_trimmed r d :
  names_trimmed d -> names_trimmed (snd (handle r d)).
Proof.
  intros Inv. destruct r as [i p|i p|i|i p|i p|i]; cbn [handle].
  - pose proof (create_topic_trimmed i p d Inv).
    now destruct (create_topic i p d).
  - pose proof (update_topic_trimmed i p d Inv).
    now destruct (update_topic i p d).
  - pose proof (delete_topic_trimmed i d Inv).
    now destruct (delete_topic i d).
  - pose proof (create_skill_topics i p d) as E.
    destruct (create_skill i p d) as [x d']. cbn in *.
    unfold names_trimmed. now rewrite E.
  - pose proof (update_skill_topics i p d) as E.
    destruct (update_skill i p d) as [x d']. cbn in *.
    unfold names_trimmed. now rewrite E.
  - pose proof (delete_skill_topics i d) as E.
    destruct (delete_skill i d) as [x d']. cbn in *.
    unfold names_trimmed. now rewrite E.
Qed.

Lemma reachable_trimmed d : reachable d -> names_trimmed d.
Proof.
  induction 1 as [|d r Hr IH Hf].
  - intros t [].
  - now apply handle_trimmed.
Qed.




(** ** Default difficulty *)



(** ** Parent references *)

Lemma not_dangling_stored v d i :
  ~ dangling v d -> v = Some i -> i <> "" -> topic_stored i d.
Proof.
  intros Hn -> Hi. destruct (topic_get i d) as [t|] eqn:E.
  - apply topic_get_stored. now exists t.
  - elim Hn. exists i. split; [reflexivity|]. split; [exact Hi|].
    now apply topic_get_none.
Qed.

Lemma create_topic_ok_parent i p d t :
  fst (create_topic i p d) = Ok 201%Z t ->
  ~ dangling (t_parent_topic_id t) d.
Proof.
  destruct (create_topic_cases i p d)
    as [[_ ->]|[[_ [_ ->]]|[_ [Hd ->]]]]; cbn [fst]; try discriminate.
  intros [= <-]. exact Hd.
Qed.

Lemma update_topic_ok_parent i p d t :
  fst (update_topic i p d) = Ok 200%Z t ->
  ~ dangling (t_parent_topic_id t) d.
Proof.
  destruct (topic_get i d) as [t0|] eqn:Eg.
  - destruct (update_topic_cases i p d t0 Eg) as [[_ ->]|[Hd ->]];
      cbn [fst]; [discriminate|].
    intros [= <-]. exact Hd.
  - unfold update_topic. rewrite Eg. discriminate.
Qed.

Lemma parents_same_topics d d' :
  topics d' = topics d -> parents_set_exist d -> parents_set_exist d'.
Proof.
  unfold parents_set_exist, topic_stored. intros ->. auto.
Qed.

Lemma create_topic_parents i p d :
  parents_set_exist d -> parents_set_exist (snd (create_topic i p d)).
Proof.
  intros Inv.
  destruct (create_topic_cases i p d)
    as [[_ ->]|[[_ [_ ->]]|[_ [Hd ->]]]]; cbn [snd]; try exact Inv.
  intros t j Ht Hp Hj. apply topic_stored_add.
  cbn in Ht. apply in_app_or in Ht. destruct Ht as [Ht|[<-|[]]].
  - exact (Inv t j Ht Hp Hj).
  - exact (not_dangling_stored _ d j Hd Hp Hj).
Qed.

Lemma update_topic_parents i p d :
  parents_set_exist d -> parents_set_exist (snd (update_topic i p d)).
Proof.
  intros Inv. destruct (topic_get i d) as [t0|] eqn:Eg.
  - destruct (update_topic_cases i p d t0 Eg) as [[_ ->]|[Hd ->]];
      cbn [snd]; [exact Inv|].
    intros t j Ht Hp Hj. apply topic_stored_put.
    cbn in Ht. apply in_map_iff in Ht. destruct Ht as [y [Hy Hin]].
    cbn [t_id] in Hy. destruct (t_id y =? t_id t0)%string; subst t.
    + exact (not_dangling_stored _ d j Hd Hp Hj).
    + exact (Inv y j Hin Hp Hj).
  - unfold update_topic. rewrite Eg. exact Inv.
Qed.

Lemma delete_topic_parents i d :
  spares_children (DeleteTopic i) d ->
  parents_set_exist d -> parents_set_exist (snd (delete_topic i d)).
Proof.
  intros Hs Inv. unfold delete_topic.
  destruct (topic_get i d) as [t0|] eqn:Eg; [|exact Inv].
  destruct (has_skills i d); [exact Inv|]. cbn [snd].
  apply topic_get_some in Eg. destruct Eg as [_ Hid].
  intros t j Ht Hp Hj. cbn in Ht. apply filter_In in Ht.
  destruct Ht as [Ht Hne]. apply negb_true_iff, String.eqb_neq in Hne.
  rewrite Hid in Hne.
  apply topic_stored_drop. split; [exact (Inv t j Ht Hp Hj)|].
  rewrite Hid. intros ->. exact (Hs t Ht Hne Hp).
Qed.

Lemma handle_parents r d :
  spares_children r d ->
  parents_set_exist d -> parents_set_exist (snd (handle r d)).
Proof.
  intros Hs Inv. destruct r as [i p|i p|i|i p|i p|i]; cbn [handle].
  - pose proof (create_topic_parents i p d Inv).
    now destruct (create_topic i p d).
  - pose proof (update_topic_parents i p d Inv).
    now destruct (update_topic i p d).
  - pose proof (delete_topic_parents i d Hs Inv).
    now destruct (delete_topic i d).
  - pose proof (create_skill_topics i p d) as E.
    destruct (create_skill i p d) as [x d']. cbn in *.
    now apply (parents_same_topics d).
  - pose proof (update_skill_topics i p d) as E.
    destruct (update_skill i p d) as [x d']. cbn in *.
    now apply (parents_same_topics d).
  - pose proof (delete_skill_topics i d) as E.
    destruct (delete_skill i d) as [x d']. cbn in *.
    now apply (parents_same_topics d).
Qed.

Lemma sparing_reachable d : reachable_sparing d -> reachable d.
Proof.
  induction 1 as [|d r Hr IH Hf Hs]; [apply reach_empty|].
  now apply reach_step.
Qed.

Lemma sparing_parents d : reachable_sparing d -> parents_set_exist d.
Proof.
  induction 1 as [|d r Hr IH Hf Hs].
  - intros t i [].
  - now apply handle_parents.
Qed.

Lemma two_topics_sparing : reachable_sparing two_topics.
Proof.
  unfold two_topics.
  apply spare_step; [apply spare_step; [apply spare_empty| |]| |];
    first [reflexivity | exact I].
Qed.

(** C3.  In every state reached from the empty database by creates,
    updates and deletes of Topics and Skills none of which deletes a
    Topic that another stored Topic names as its parent, every stored
    Topic whose [parentTopicID] is a non-empty identifier names a stored
    Topic.  The checks that keep it so: a Topic create and every Topic
    update answer with success only when the parent they store is absent,
    empty or the identifier of a stored Topic.  A Topic delete looks at
    Skills only and has no such check. *)
Theorem parents_exist_unless_parent_deleted (d : db) :
  reachable_sparing d ->
  reachable d
  /\ parents_set_exist d
  /\ (forall i p t, fst (create_topic i p d) = Ok 201%Z t ->
        ~ dangling (t_parent_topic_id t) d)
  /\ (forall i p t, fst (update_topic i p d) = Ok 200%Z t ->
        ~ dangling (t_parent_topic_id t) d).
Proof.
  intros Hr. split; [now apply sparing_reachable|].
  split; [now apply sparing_parents|].
  split; [intros i p t; apply create_topic_ok_parent|].
  intros i p t. apply update_topic_ok_parent.
Qed.

(** ** Search by name *)










Lemma filter_filter {A} (f g : A -> bool) l :
  filter g (filter f l) = filter (fun x => f x && g x) l.
Proof.
  induction l as [|a l IH]; [reflexivity|].
  cbn. destruct (f a); cbn; [destruct (g a)|]; now rewrite IH.
Qed.


(** ** Ordering and paging *)



Section Ordering.
Context {A : Type}.
Variable name : A -> string.



Lemma insert_by_perm x l : Permutation (insert_by name x l) (x :: l).
Proof.
  induction l as [|y r IH]; [reflexivity|].
  cbn. destruct (name x <=? name y)%string; [reflexivity|].
  rewrite IH. apply perm_swap.
Qed.

Lemma order_by_perm l : Permutation (order_by name l) l.
Proof.
  induction l as [|x r IH]; [reflexivity|].
  cbn. rewrite insert_by_perm. now constructor.
Qed.




Lemma firstn_incl n (l : list A) x : In x (firstn n l) -> In x l.
Proof.
  intros H. rewrite <- (firstn_skipn n l). apply in_or_app. now left.
Qed.

Lemma skipn_incl n (l : list A) x : In x (skipn n l) -> In x l.
Proof.
  intros H. rewrite <- (firstn_skipn n l). apply in_or_app. now right.
Qed.





Variable ref : A -> option string.

Lemma capped_window limit offset (rows : list A) :
  firstn (Z.to_nat (Z.min limit (Z.of_nat (List.length rows))))
    (skipn (Z.to_nat (Z.min offset (Z.of_nat (List.length rows)))) rows)
  = window limit offset rows.
Proof.
  unfold window.
  assert (Hs : skipn (Z.to_nat (Z.min offset (Z.of_nat (List.length rows))))
                 rows
               = skipn (Z.to_nat offset) rows).
  { destruct (Z.le_gt_cases offset (Z.of_nat (List.length rows))) as [H|H].
    - now rewrite Z.min_l.
    - rewrite Z.min_r, Nat2Z.id by lia.
      rewrite !skipn_all2; [reflexivity | lia | lia]. }
  rewrite Hs.
  destruct (Z.le_gt_cases limit (Z.of_nat (List.length rows))) as [H|H].
  - now rewrite Z.min_l.
  - rewrite Z.min_r, Nat2Z.id by lia.
    pose proof (length_skipn (Z.to_nat offset) rows) as Hk.
    rewrite !firstn_all2; [reflexivity | lia | lia].
Qed.


Lemma fetch_inv limit offset (rows items : list A) :
  fetch limit offset rows = Some items ->
  (0 <= limit)%Z /\ (0 <= offset <= max_bigint)%Z
  /\ items = window limit offset rows.
Proof.
  unfold fetch.
  destruct (limit <? 0)%Z eqn:E1; [discriminate|].
  destruct (offset <? 0)%Z eqn:E2; [discriminate|].
  destruct (max_bigint <? limit)%Z eqn:E3; [discriminate|].
  destruct (max_bigint <? offset)%Z eqn:E4; [discriminate|].
  cbn [orb]. cbn zeta. rewrite capped_window. intros [= <-].
  apply Z.ltb_ge in E1, E2, E4. repeat split; assumption.
Qed.



End Ordering.

Section Search.
Context {A : Type}.
Variable name : A -> string.
Variable ref : A -> option string.


End Search.





(** ** The theorems at concrete requests *)

Lemma with_skill_reachable : reachable with_skill.
Proof.
  unfold with_skill. apply reach_step; [apply two_topics_reachable|].
  reflexivity.
Qed.

Lemma skills_always_attached_witness :
  reachable with_skill /\ skills_attached with_skill.
Proof.
  split; [exact with_skill_reachable|].
  exact (proj1 (skills_always_attached with_skill with_skill_reachable)).
Defined.

Lemma error_leaves_db_unchanged_witness :
  fst (handle (DeleteTopic "T1") with_skill) = Refused Conflict
  /\ snd (handle (DeleteTopic "T1") with_skill) = with_skill.
Proof.
  split; [reflexivity|].
  apply (error_leaves_db_unchanged (DeleteTopic "T1") with_skill Conflict).
  reflexivity.
Defined.





Lemma parents_exist_unless_parent_deleted_witness :
  reachable_sparing two_topics /\ parents_set_exist two_topics.
Proof.
  split; [exact two_topics_sparing|].
  exact (proj1 (proj2 (parents_exist_unless_parent_deleted two_topics
                         two_topics_sparing))).
Defined.


(** * Further properties of the handlers *)

(** ** Looking a row up after a write *)

Section Table.
Context {A : Type}.
Variable key : A -> string.

Lemma find_add j x l :
  find (fun y => (key y =? j)%string) (l ++ [x]) =
  match find (fun y => (key y =? j)%string) l with
  | Some y => Some y
  | None => if (key x =? j)%string then Some x else None
  end.
Proof.
  induction l as [|a l IH]; cbn.
  - destruct (key x =? j)%string; reflexivity.
  - destruct (key a =? j)%string; [reflexivity | exact IH].
Qed.

Lemma replace_key x y :
  key (if (key y =? key x)%string then x else y) = key y.
Proof.
  destruct (key y =? key x)%string eqn:E; [|reflexivity].
  apply String.eqb_eq in E. congruence.
Qed.

Lemma find_put j x l :
  find (fun y => (key y =? j)%string)
    (map (fun y => if (key y =? key x)%string then x else y) l) =
  option_map (fun y => if (key y =? key x)%string then x else y)
    (find (fun y => (key y =? j)%string) l).
Proof.
  induction l as [|a l IH]; [reflexivity|].
  cbn [map find]. rewrite replace_key.
  destruct (key a =? j)%string; [reflexivity | exact IH].
Qed.

Lemma find_drop j x l :
  find (fun y => (key y =? j)%string)
    (filter (fun y => negb (key y =? key x)%string) l) =
  if (j =? key x)%string then None
  else find (fun y => (key y =? j)%string) l.
Proof.
  induction l as [|a l IH]; cbn [filter find].
  - destruct (j =? key x)%string; reflexivity.
  - destruct (key a =? key x)%string eqn:Ex; cbn [negb].
    + rewrite IH. destruct (j =? key x)%string eqn:Ej; [reflexivity|].
      destruct (key a =? j)%string eqn:Ea; [|reflexivity].
      apply String.eqb_eq in Ex, Ea. apply String.eqb_neq in Ej. congruence.
    + cbn [find]. destruct (key a =? j)%string eqn:Ea.
      * destruct (j =? key x)%string eqn:Ej; [|reflexivity].
        apply String.eqb_eq in Ea, Ej. apply String.eqb_neq in Ex.
        congruence.
      * exact IH.
Qed.

Lemma find_key j l x :
  find (fun y => (key y =? j)%string) l = Some x -> key x = j.
Proof.
  intros H. apply find_some in H. now apply String.eqb_eq.
Qed.
End Table.

Lemma topic_get_add j t d :
  topic_get j (add_topic t d) =
  match topic_get j d with
  | Some y => Some y
  | None => if (t_id t =? j)%string then Some t else None
  end.
Proof. apply (find_add t_id). Qed.

Lemma skill_get_add j k d :
  skill_get j (add_skill k d) =
  match skill_get j d with
  | Some y => Some y
  | None => if (s_id k =? j)%string then Some k else None
  end.
Proof. apply (find_add s_id). Qed.

Lemma topic_get_put j t d :
  topic_get j (put_topic t d) =
  option_map (fun y => if (t_id y =? t_id t)%string then t else y)
    (topic_get j d).
Proof. apply (find_put t_id). Qed.

Lemma skill_get_put j k d :
  skill_get j (put_skill k d) =
  option_map (fun y => if (s_id y =? s_id k)%string then k else y)
    (skill_get j d).
Proof. apply (find_put s_id). Qed.

Lemma topic_get_drop j t d :
  topic_get j (drop_topic t d) =
  if (j =? t_id t)%string then None else topic_get j d.
Proof. apply (find_drop t_id). Qed.

Lemma skill_get_drop j k d :
  skill_get j (drop_skill k d) =
  if (j =? s_id k)%string then None else skill_get j d.
Proof. apply (find_drop s_id). Qed.

Lemma update_skill_cases id p d k :
  skill_get id d = Some k ->
  let k' := mkSkill (s_id k) (strip (py_or (get p "name") (s_name k)))
              (resolved_topic p k)
              (strip (py_or (get p "difficulty") (s_difficulty k))) in
  (topic_exists (resolved_topic p k) d = false
   /\ update_skill id p d = (Fail ValidationError "topicID not found", d))
  \/ (topic_exists (resolved_topic p k) d = true
      /\ update_skill id p d = (Ok 200%Z k', put_skill k' d)).
Proof.
  intros Hg. cbn zeta. unfold update_skill, resolved_topic. rewrite Hg.
  destruct (topic_exists _ d); cbn [negb]; [right | left]; auto.
Qed.

(** ** Round trips *)

(** X1.  A Topic created under an identifier no stored Topic has is what
    GET /topics/<id> returns for that identifier afterwards; it carries
    the trimmed name and the description and parent as sent. *)
Theorem create_topic_then_get (new_id : string) (p : payload) (d d' : db)
    (t : Topic) :
  topic_get new_id d = None ->
  create_topic new_id p d = (Ok 201%Z t, d') ->
  get_topic new_id d' = Ok 200%Z t
  /\ t = mkTopic new_id (strip (given (get p "name")))
           (get p "description") (get p "parentTopicID").
Proof.
  intros Hf Hc.
  destruct (create_topic_cases new_id p d)
    as [[_ E]|[[_ [_ E]]|[_ [_ E]]]]; rewrite E in Hc;
    try discriminate.
  injection Hc as <- <-. split; [|reflexivity].
  unfold get_topic. rewrite topic_get_add, Hf. cbn [t_id].
  now rewrite String.eqb_refl.
Qed.

(** X2.  A Skill created under an identifier no stored Skill has is what
    GET /skills/<id> returns for that identifier afterwards; it carries
    the trimmed name, the [topicID] taken from [topicID] or else
    [topicId], and the trimmed difficulty or "beginner". *)
Theorem create_skill_then_get (new_id : string) (p : payload) (d d' : db)
    (k : Skill) :
  skill_get new_id d = None ->
  create_skill new_id p d = (Ok 201%Z k, d') ->
  get_skill new_id d' = Ok 200%Z k
  /\ k = mkSkill new_id (strip (given (get p "name")))
           (py_or_opt (get p "topicID") (get p "topicId"))
           (strip (py_or (get p "difficulty") "beginner")).
Proof.
  intros Hf Hc.
  destruct (create_skill_cases new_id p d)
    as [[_ E]|[[_ [_ E]]|[[_ [_ [_ E]]]|[_ [_ [_ E]]]]]]; rewrite E in Hc;
    try discriminate.
  injection Hc as <- <-. split; [|reflexivity].
  unfold get_skill. rewrite skill_get_add, Hf. cbn [s_id].
  now rewrite String.eqb_refl.
Qed.

(** X3.  After a successful update, GET by the same identifier returns
    exactly the entity the update returned, for Topics and for Skills. *)
Theorem update_then_get (id : string) (p : payload) (d : db) :
  (forall t' d', update_topic id p d = (Ok 200%Z t', d') ->
     get_topic id d' = Ok 200%Z t')
  /\ (forall k' d', update_skill id p d = (Ok 200%Z k', d') ->
        get_skill id d' = Ok 200%Z k').
Proof.
  split.
  - intros t' d' Hu. destruct (topic_get id d) as [t|] eqn:Eg.
    + destruct (update_topic_cases id p d t Eg) as [[_ E]|[_ E]];
        rewrite E in Hu; [discriminate|].
      injection Hu as <- <-.
      unfold get_topic. rewrite topic_get_put, Eg. cbn.
      now rewrite String.eqb_refl.
    + unfold update_topic in Hu. rewrite Eg in Hu. discriminate.
  - intros k' d' Hu. destruct (skill_get id d) as [k|] eqn:Eg.
    + destruct (update_skill_cases id p d k Eg) as [[_ E]|[_ E]];
        rewrite E in Hu; [discriminate|].
      injection Hu as <- <-.
      unfold get_skill. rewrite skill_get_put, Eg. cbn.
      now rewrite String.eqb_refl.
    + unfold update_skill in Hu. rewrite Eg in Hu. discriminate.
Qed.

(** ** Deleting *)


(** X5.  What was deleted is gone: after a successful delete of a Topic
    or of a Skill, GET by that identifier answers NotFound and a second
    delete answers NotFound without changing anything. *)
Theorem deleted_then_missing (id : string) (d : db) :
  (fst (delete_topic id d) = Ok 204%Z tt ->
     get_topic id (snd (delete_topic id d)) = Fail NotFound "Topic not found"
     /\ delete_topic id (snd (delete_topic id d))
        = (Fail NotFound "Topic not found", snd (delete_topic id d)))
  /\ (fst (delete_skill id d) = Ok 204%Z tt ->
        get_skill id (snd (delete_skill id d))
        = Fail NotFound "Skill not found"
        /\ delete_skill id (snd (delete_skill id d))
           = (Fail NotFound "Skill not found", snd (delete_skill id d))).
Proof.
  split.
  - intros H.
    assert (E : topic_get id (snd (delete_topic id d)) = None).
    { unfold delete_topic in *.
      destruct (topic_get id d) as [t|] eqn:Eg; [|discriminate].
      destruct (has_skills id d); [discriminate|]. cbn [snd].
      rewrite topic_get_drop, (find_key t_id _ _ _ Eg).
      now rewrite String.eqb_refl. }
    unfold get_topic. unfold delete_topic at 2. now rewrite E.
  - intros H.
    assert (E : skill_get id (snd (delete_skill id d)) = None).
    { unfold delete_skill in *.
      destruct (skill_get id d) as [k|] eqn:Eg; [|discriminate].
      cbn [snd]. rewrite skill_get_drop, (find_key s_id _ _ _ Eg).
      now rewrite String.eqb_refl. }
    unfold get_skill. unfold delete_skill at 2. now rewrite E.
Qed.

(** ** What a request leaves alone *)

Lemma create_topic_skills i p d : skills (snd (create_topic i p d)) = skills d.
Proof.
  unfold create_topic.
  destruct (negb (nonempty _)); [reflexivity|].
  destruct (truthy _ && negb _); reflexivity.
Qed.

Lemma update_topic_skills i p d : skills (snd (update_topic i p d)) = skills d.
Proof.
  unfold update_topic. destruct (topic_get i d) as [t|]; [|reflexivity].
  destruct (truthy _ && negb _); reflexivity.
Qed.

Lemma delete_topic_skills i d : skills (snd (delete_topic i d)) = skills d.
Proof.
  unfold delete_topic. destruct (topic_get i d) as [t|]; [|reflexivity].
  destruct (has_skills i d); reflexivity.
Qed.

(** X6.  No request reaches across tables: a create, update or delete of
    a Topic leaves every Skill row as it was (a Topic delete cascades to
    nothing), and a create, update or delete of a Skill leaves every
    Topic row as it was. *)
Theorem tables_are_independent (r : request) (d : db) :
  (on_topics r = true -> skills (snd (handle r d)) = skills d)
  /\ (on_topics r = false -> topics (snd (handle r d)) = topics d).
Proof.
  destruct r as [i p|i p|i|i p|i p|i]; cbn [handle on_topics];
    (split; [intros H | intros H]); try discriminate.
  - pose proof (create_topic_skills i p d).
    now destruct (create_topic i p d).
  - pose proof (update_topic_skills i p d).
    now destruct (update_topic i p d).
  - pose proof (delete_topic_skills i d).
    now destruct (delete_topic i d).
  - pose proof (create_skill_topics i p d).
    now destruct (create_skill i p d).
  - pose proof (update_skill_topics i p d).
    now destruct (update_skill i p d).
  - pose proof (delete_skill_topics i d).
    now destruct (delete_skill i d).
Qed.

Lemma create_topic_frame i p d j :
  j <> i -> topic_get j (snd (create_topic i p d)) = topic_get j d.
Proof.
  intros Hj.
  destruct (create_topic_cases i p d)
    as [[_ ->]|[[_ [_ ->]]|[_ [_ ->]]]]; cbn [snd]; try reflexivity.
  rewrite topic_get_add. destruct (topic_get j d); [reflexivity|].
  cbn [t_id]. destruct (i =? j)%string eqn:E; [|reflexivity].
  apply String.eqb_eq in E. congruence.
Qed.

Lemma update_topic_frame i p d j :
  j <> i -> topic_get j (snd (update_topic i p d)) = topic_get j d.
Proof.
  intros Hj. destruct (topic_get i d) as [t|] eqn:Eg.
  - pose proof (find_key t_id _ _ _ Eg) as Hid.
    destruct (update_topic_cases i p d t Eg) as [[_ ->]|[_ ->]];
      cbn [snd]; [reflexivity|].
    rewrite topic_get_put. destruct (topic_get j d) as [y|] eqn:Ey;
      [|reflexivity].
    pose proof (find_key t_id _ _ _ Ey) as Hy. cbn.
    destruct (t_id y =? t_id t)%string eqn:E; [|reflexivity].
    apply String.eqb_eq in E. congruence.
  - unfold update_topic. now rewrite Eg.
Qed.

Lemma delete_topic_frame i d j :
  j <> i -> topic_get j (snd (delete_topic i d)) = topic_get j d.
Proof.
  intros Hj. unfold delete_topic.
  destruct (topic_get i d) as [t|] eqn:Eg; [|reflexivity].
  destruct (has_skills i d); [reflexivity|]. cbn [snd].
  rewrite topic_get_drop, (find_key t_id _ _ _ Eg).
  apply String.eqb_neq in Hj. now rewrite Hj.
Qed.

Lemma create_skill_frame i p d j :
  j <> i -> skill_get j (snd (create_skill i p d)) = skill_get j d.
Proof.
  intros Hj.
  destruct (create_skill_cases i p d)
    as [[_ ->]|[[_ [_ ->]]|[[_ [_ [_ ->]]]|[_ [_ [_ ->]]]]]]; cbn [snd];
    try reflexivity.
  rewrite skill_get_add. destruct (skill_get j d); [reflexivity|].
  cbn [s_id]. destruct (i =? j)%string eqn:E; [|reflexivity].
  apply String.eqb_eq in E. congruence.
Qed.

Lemma update_skill_frame i p d j :
  j <> i -> skill_get j (snd (update_skill i p d)) = skill_get j d.
Proof.
  intros Hj. destruct (skill_get i d) as [k|] eqn:Eg.
  - pose proof (find_key s_id _ _ _ Eg) as Hid.
    destruct (update_skill_cases i p d k Eg) as [[_ ->]|[_ ->]];
      cbn [snd]; [reflexivity|].
    rewrite skill_get_put. destruct (skill_get j d) as [y|] eqn:Ey;
      [|reflexivity].
    pose proof (find_key s_id _ _ _ Ey) as Hy. cbn.
    destruct (s_id y =? s_id k)%string eqn:E; [|reflexivity].
    apply String.eqb_eq in E. congruence.
  - unfold update_skill. now rewrite Eg.
Qed.

Lemma delete_skill_frame i d j :
  j <> i -> skill_get j (snd (delete_skill i d)) = skill_get j d.
Proof.
  intros Hj. unfold delete_skill.
  destruct (skill_get i d) as [k|] eqn:Eg; [|reflexivity]. cbn [snd].
  rewrite skill_get_drop, (find_key s_id _ _ _ Eg).
  apply String.eqb_neq in Hj. now rewrite Hj.
Qed.

Lemma topic_get_skills_only d d' j :
  topics d' = topics d -> topic_get j d' = topic_get j d.
Proof. unfold topic_get. now intros ->. Qed.

Lemma skill_get_topics_only d d' j :
  skills d' = skills d -> skill_get j d' = skill_get j d.
Proof. unfold skill_get. now intros ->. Qed.

(** X7.  A request about one identifier changes nothing that GET reports
    for any other identifier: whatever the request and its outcome, the
    Topic and the Skill found under a different identifier are the same
    before and after. *)
Theorem other_ids_untouched (r : request) (d : db) (j : string) :
  j <> target r ->
  topic_get j (snd (handle r d)) = topic_get j d
  /\ skill_get j (snd (handle r d)) = skill_get j d.
Proof.
  intros Hj.
  destruct r as [i p|i p|i|i p|i p|i]; cbn [handle target] in *.
  - pose proof (create_topic_frame i p d j Hj).
    pose proof (create_topic_skills i p d).
    destruct (create_topic i p d). cbn in *.
    split; [assumption | now apply skill_get_topics_only].
  - pose proof (update_topic_frame i p d j Hj).
    pose proof (update_topic_skills i p d).
    destruct (update_topic i p d). cbn in *.
    split; [assumption | now apply skill_get_topics_only].
  - pose proof (delete_topic_frame i d j Hj).
    pose proof (delete_topic_skills i d).
    destruct (delete_topic i d). cbn in *.
    split; [assumption | now apply skill_get_topics_only].
  - pose proof (create_skill_frame i p d j Hj).
    pose proof (create_skill_topics i p d).
    destruct (create_skill i p d). cbn in *.
    split; [now apply topic_get_skills_only | assumption].
  - pose proof (update_skill_frame i p d j Hj).
    pose proof (update_skill_topics i p d).
    destruct (update_skill i p d). cbn in *.
    split; [now apply topic_get_skills_only | assumption].
  - pose proof (delete_skill_frame i d j Hj).
    pose proof (delete_skill_topics i d).
    destruct (delete_skill i d). cbn in *.
    split; [now apply topic_get_skills_only | assumption].
Qed.

(** ** Identifiers stay unique *)

Section Keys.
Context {A : Type}.
Variable key : A -> string.

Lemma nodup_add x l :
  find (fun y => (key y =? key x)%string) l = None ->
  NoDup (map key l) -> NoDup (map key (l ++ [x])).
Proof.
  intros Hf Hn. rewrite map_app. cbn.
  apply (Permutation_NoDup (l := key x :: map key l)).
  - change (key x :: map key l) with ([key x] ++ map key l).
    apply Permutation_app_comm.
  - constructor; [|exact Hn].
    intros Hin. apply in_map_iff in Hin. destruct Hin as [y [Hy Hin]].
    pose proof (find_none _ _ Hf y Hin) as Hne. cbn in Hne.
    rewrite Hy, String.eqb_refl in Hne. discriminate.
Qed.

Lemma nodup_put x l :
  NoDup (map key l) ->
  NoDup (map key (map (fun y => if (key y =? key x)%string then x else y) l)).
Proof.
  intros Hn. rewrite map_map.
  rewrite (map_ext _ key); [exact Hn|].
  intros y. apply (replace_key key).
Qed.

Lemma nodup_drop (g : A -> bool) l :
  NoDup (map key l) -> NoDup (map key (filter g l)).
Proof.
  induction l as [|a l IH]; cbn; [auto|].
  intros Hn. inversion Hn as [|? ? Hna Hnl]; subst.
  destruct (g a); cbn; [|now apply IH].
  constructor; [|now apply IH].
  intros Hin. apply Hna. apply in_map_iff in Hin.
  destruct Hin as [y [Hy Hin]]. apply filter_In in Hin.
  apply in_map_iff. exists y. tauto.
Qed.
End Keys.

Lemma handle_ids_unique r d :
  fresh r d -> ids_unique d -> ids_unique (snd (handle r d)).
Proof.
  intros Hf [Ht Hs]. unfold ids_unique.
  destruct r as [i p|i p|i|i p|i p|i]; cbn [handle fresh] in *.
  - pose proof (create_topic_skills i p d) as Ek.
    destruct (create_topic_cases i p d)
      as [[_ E]|[[_ [_ E]]|[_ [_ E]]]]; rewrite E in *; cbn [snd] in *;
      try (split; assumption).
    split; [|exact Hs]. cbn [add_topic topics].
    apply (nodup_add t_id); [exact Hf | exact Ht].
  - pose proof (update_topic_skills i p d) as Ek.
    destruct (topic_get i d) as [t|] eqn:Eg.
    + destruct (update_topic_cases i p d t Eg) as [[_ E]|[_ E]];
        rewrite E in *; cbn [snd] in *; try (split; assumption).
      split; [|exact Hs]. cbn [put_topic topics].
      apply (nodup_put t_id). exact Ht.
    + unfold update_topic. rewrite Eg. cbn. split; assumption.
  - unfold delete_topic. destruct (topic_get i d) as [t|];
      [|split; assumption].
    destruct (has_skills i d); [split; assumption|]. cbn.
    split; [|exact Hs]. now apply (nodup_drop t_id).
  - destruct (create_skill_cases i p d)
      as [[_ E]|[[_ [_ E]]|[[_ [_ [_ E]]]|[_ [_ [_ E]]]]]]; rewrite E;
      cbn [snd]; try (split; assumption).
    split; [exact Ht|]. cbn [add_skill skills].
    apply (nodup_add s_id); [exact Hf | exact Hs].
  - destruct (skill_get i d) as [k|] eqn:Eg.
    + destruct (update_skill_cases i p d k Eg) as [[_ E]|[_ E]];
        rewrite E; cbn [snd]; try (split; assumption).
      split; [exact Ht|]. cbn [put_skill skills].
      apply (nodup_put s_id). exact Hs.
    + unfold update_skill. rewrite Eg. cbn. split; assumption.
  - unfold delete_skill. destruct (skill_get i d) as [k|];
      [|split; assumption].
    cbn. split; [exact Ht|]. now apply (nodup_drop s_id).
Qed.

(** X8.  In every state reached from the empty database, with each
    create given an identifier its table does not hold yet, no two Topics
    share an identifier and no two Skills do: updates keep the identifier
    of the row they rewrite and nothing else writes one. *)
Theorem ids_stay_unique (d : db) : reachable d -> ids_unique d.
Proof.
  induction 1 as [|d r Hr IH Hf].
  - split; constructor.
  - now apply handle_ids_unique.
Qed.

(** ** Outcomes of an update *)




(** ** Freeing a Topic for deletion *)

Lemma delete_topic_when_free id d t :
  topic_get id d = Some t ->
  ~ skill_refers id d ->
  fst (delete_topic id d) = Ok 204%Z tt.
Proof.
  intros Hg Hn. unfold delete_topic. rewrite Hg.
  apply has_skills_false in Hn. now rewrite Hn.
Qed.

(** X12.  When every Skill that refers to a stored Topic carries one
    identifier, deleting the Skill with that identifier makes the delete
    of the Topic succeed. *)
Theorem delete_skill_frees_topic (id sid : string) (d : db) (t : Topic) :
  topic_get id d = Some t ->
  (forall x, In x (skills d) -> s_topic_id x = Some id -> s_id x = sid) ->
  fst (delete_topic id (snd (delete_skill sid d))) = Ok 204%Z tt.
Proof.
  intros Hg Honly. apply (delete_topic_when_free _ _ t).
  - rewrite (topic_get_skills_only d); [exact Hg|].
    apply delete_skill_topics.
  - intros [x [Hin Hr]]. unfold delete_skill in Hin.
    destruct (skill_get sid d) as [k|] eqn:Ek; cbn in Hin.
    + apply filter_In in Hin. destruct Hin as [Hin Hne].
      apply negb_true_iff, String.eqb_neq in Hne.
      rewrite (find_key s_id _ _ _ Ek) in Hne.
      apply Hne. now apply Honly.
    + pose proof (find_none _ _ Ek x Hin) as Hne. cbn in Hne.
      rewrite (Honly x Hin Hr), String.eqb_refl in Hne. discriminate.
Qed.


(** ** Pages and filters *)

Section Pages.
Context {A : Type}.
Variable name : A -> string.
Variable ref : A -> option string.

Lemma order_by_length (l : list A) :
  List.length (order_by name l) = List.length l.
Proof. apply Permutation_length, order_by_perm. Qed.

Lemma list_rows_page q fk limit offset rows r :
  list_rows name ref q fk limit offset rows = Some r ->
  List.length (data r)
  = Nat.min (Z.to_nat (meta_limit r)) (total r - Z.to_nat (meta_offset r))
  /\ (List.length (data r) <= 200)%nat
  /\ (List.length (data r) <= total r)%nat
  /\ (0 <= meta_limit r <= 200)%Z
  /\ (0 <= meta_offset r)%Z.
Proof.
  unfold list_rows. destruct (accepts q fk); [|discriminate].
  destruct (fetch _ _ _) as [items|] eqn:Ef; [|discriminate].
  apply fetch_inv in Ef. destruct Ef as [El [[Ho _] ->]].
  intros [= <-]. cbn [data total meta_limit meta_offset].
  assert (Hu : (clamp_limit limit <= 200)%Z)
    by (unfold clamp_limit; lia).
  unfold window.
  rewrite length_firstn, length_skipn, order_by_length.
  repeat split; try lia.
Qed.

Lemma list_rows_by_ref q pid limit offset rows r :
  pid <> "" ->
  list_rows name ref q (Some pid) limit offset rows = Some r ->
  (forall x, In x (data r) -> In x rows /\ ref x = Some pid)
  /\ (total r
      <= List.length (filter (fun x => col_eq (ref x) pid) rows))%nat.
Proof.
  intros Hp. unfold list_rows.
  destruct (accepts q (Some pid)); [|discriminate].
  destruct (fetch _ _ _) as [items|] eqn:Ef; [|discriminate].
  apply fetch_inv in Ef. destruct Ef as [_ [_ ->]].
  intros [= <-]. cbn [data total]. unfold window.
  assert (Ht : truthy (Some pid) = true)
    by (destruct pid; [now elim Hp | reflexivity]).
  assert (Hpy : py_or (Some pid) "" = pid) by (destruct pid; reflexivity).
  unfold select. rewrite Ht, Hpy. split.
  - intros x Hx. apply firstn_incl, skipn_incl in Hx.
    apply (Permutation_in _ (order_by_perm name _)) in Hx.
    apply filter_In in Hx. destruct Hx as [Hin Hc].
    apply col_eq_true in Hc. split; [|exact Hc].
    destruct (truthy q); [now apply filter_In in Hin | exact Hin].
  - destruct (truthy q); [|reflexivity].
    rewrite filter_filter.
    rewrite (filter_ext _ (fun x => col_eq (ref x) pid
                                    && ilike (name x)
                                         ("%" ++ py_or q "" ++ "%")%string));
      [|intros x; apply andb_comm].
    rewrite <- filter_filter. apply filter_length_le.
Qed.

End Pages.

(** X14.  Whenever a listing of Topics or of Skills is produced, the
    page holds exactly min(limit, total - offset) items for the reported
    limit and offset; so it never holds more than 200 items nor more than
    [total], the reported limit lies between 0 and 200, and the reported
    offset is not negative. *)
Theorem page_size (q fk : option string) (limit offset : option Z) (d : db) :
  (forall r, list_topics q fk limit offset d = Some r ->
     List.length (data r)
     = Nat.min (Z.to_nat (meta_limit r)) (total r - Z.to_nat (meta_offset r))
     /\ (List.length (data r) <= 200)%nat
     /\ (List.length (data r) <= total r)%nat
     /\ (0 <= meta_limit r <= 200)%Z
     /\ (0 <= meta_offset r)%Z)
  /\ (forall r, list_skills q fk limit offset d = Some r ->
        List.length (data r)
        = Nat.min (Z.to_nat (meta_limit r))
            (total r - Z.to_nat (meta_offset r))
        /\ (List.length (data r) <= 200)%nat
        /\ (List.length (data r) <= total r)%nat
        /\ (0 <= meta_limit r <= 200)%Z
        /\ (0 <= meta_offset r)%Z).
Proof.
  split; intros r; apply list_rows_page.
Qed.

(** X15.  The identifier filter is an exact match and holds whatever the
    search text is: with a non-empty [parentId] every listed Topic is a
    stored Topic whose [parentTopicID] is that identifier, with a
    non-empty [topicId] every listed Skill is a stored Skill whose
    [topicID] is that identifier, and [total] is at most the number of
    such rows.  An empty-string [q], [parentId] or [topicId] is treated
    as absent. *)
Theorem filter_by_reference (q : option string) (pid : string)
    (limit offset : option Z) (d : db) :
  pid <> "" ->
  (forall r, list_topics q (Some pid) limit offset d = Some r ->
     (forall t, In t (data r) ->
        In t (topics d) /\ t_parent_topic_id t = Some pid)
     /\ (total r
         <= List.length
              (filter (fun t => col_eq (t_parent_topic_id t) pid)
                 (topics d)))%nat)
  /\ (forall r, list_skills q (Some pid) limit offset d = Some r ->
        (forall k, In k (data r) ->
           In k (skills d) /\ s_topic_id k = Some pid)
        /\ (total r
            <= List.length
                 (filter (fun k => col_eq (s_topic_id k) pid)
                    (skills d)))%nat)
  /\ list_topics (Some "") (Some pid) limit offset d
     = list_topics None (Some pid) limit offset d
  /\ list_topics q (Some "") limit offset d
     = list_topics q None limit offset d
  /\ list_skills (Some "") (Some pid) limit offset d
     = list_skills None (Some pid) limit offset d
  /\ list_skills q (Some "") limit offset d
     = list_skills q None limit offset d.
Proof.
  intros Hp.
  split; [intros r; now apply list_rows_by_ref|].
  split; [intros r; now apply list_rows_by_ref|].
  repeat split.
Qed.

(** ** Stored text is trimmed *)

Lemma handle_skills_trimmed r d :
  skills_trimmed d -> skills_trimmed (snd (handle r d)).
Proof.
  intros Inv. unfold skills_trimmed.
  destruct r as [i p|i p|i|i p|i p|i]; cbn [handle].
  - pose proof (create_topic_skills i p d) as E.
    destruct (create_topic i p d). cbn in *. now rewrite E.
  - pose proof (update_topic_skills i p d) as E.
    destruct (update_topic i p d). cbn in *. now rewrite E.
  - pose proof (delete_topic_skills i d) as E.
    destruct (delete_topic i d). cbn in *. now rewrite E.
  - destruct (create_skill_cases i p d)
      as [[_ E]|[[_ [_ E]]|[[_ [_ [_ E]]]|[_ [_ [_ E]]]]]]; rewrite E;
      cbn [snd]; try exact Inv.
    intros k Hk. cbn in Hk. apply in_app_or in Hk.
    destruct Hk as [Hk|[<-|[]]]; [exact (Inv k Hk)|].
    cbn. split; apply strip_idem.
  - destruct (skill_get i d) as [k0|] eqn:Eg.
    + destruct (update_skill_cases i p d k0 Eg) as [[_ E]|[_ E]];
        rewrite E; cbn [snd]; [exact Inv|].
      intros k Hk. cbn in Hk. apply in_map_iff in Hk.
      destruct Hk as [y [Hy Hin]]. cbn [s_id] in Hy.
      destruct (s_id y =? s_id k0)%string; subst k.
      * cbn. split; apply strip_idem.
      * exact (Inv y Hin).
    + unfold update_skill. rewrite Eg. exact Inv.
  - unfold delete_skill. destruct (skill_get i d) as [k0|]; [|exact Inv].
    cbn. intros k Hk. apply filter_In in Hk. exact (Inv k (proj1 Hk)).
Qed.

Lemma reachable_skills_trimmed d : reachable d -> skills_trimmed d.
Proof.
  induction 1 as [|d r Hr IH Hf].
  - intros k [].
  - now apply handle_skills_trimmed.
Qed.

(** X16.  In every state reached from the empty database, no stored
    Topic name, Skill name or Skill difficulty has leading or trailing
    whitespace: each is left unchanged by trimming, because creates and
    updates store only trimmed text. *)
Theorem text_stays_trimmed (d : db) : reachable d -> text_trimmed d.
Proof.
  intros Hr. split.
  - apply (reachable_trimmed d Hr).
  - apply (reachable_skills_trimmed d Hr).
Qed.


(** ** The further properties at concrete requests *)

Lemma create_topic_then_get_witness :
  get_topic "T1" one_topic = Ok 200%Z (mkTopic "T1" "Math" None None).
Proof.
  apply (create_topic_then_get "T1" math_payload empty_db one_topic);
    reflexivity.
Defined.

Lemma create_skill_then_get_witness :
  get_skill "S1" with_skill
  = Ok 200%Z (mkSkill "S1" "Addition" (Some "T1") "beginner").
Proof.
  apply (create_skill_then_get "S1" addition_payload two_topics with_skill);
    reflexivity.
Defined.

Lemma other_ids_untouched_witness :
  fst (handle (DeleteTopic "T1") two_topics) = Done 204%Z
  /\ topic_get "T2" (snd (handle (DeleteTopic "T1") two_topics))
     = topic_get "T2" two_topics.
Proof.
  split; [reflexivity|].
  apply (other_ids_untouched (DeleteTopic "T1") two_topics "T2").
  discriminate.
Defined.

Lemma ids_stay_unique_witness : reachable with_skill /\ ids_unique with_skill.
Proof.
  split; [exact with_skill_reachable|].
  exact (ids_stay_unique with_skill with_skill_reachable).
Defined.


Lemma delete_skill_frees_topic_witness :
  fst (delete_topic "T1" with_skill) = Fail Conflict
        "Topic has skills; move or delete skills first"
  /\ fst (delete_topic "T1" (snd (delete_skill "S1" with_skill)))
     = Ok 204%Z tt.
Proof.
  split; [reflexivity|].
  apply (delete_skill_frees_topic "T1" "S1" with_skill
           (mkTopic "T1" "Math" None None)); [reflexivity|].
  intros x [<-|[]] _. reflexivity.
Defined.


Lemma filter_by_reference_witness :
  exists r,
    list_topics None (Some "T1") None None two_topics = Some r
    /\ forall t, In t (data r) -> t_parent_topic_id t = Some "T1".
Proof.
  eexists. split; [reflexivity|]. intros t Ht.
  refine (proj2 (proj1 (proj1 (filter_by_reference None "T1" None None
                                 two_topics _) _ eq_refl) t Ht)).
  discriminate.
Defined.

Lemma text_stays_trimmed_witness :
  reachable with_skill /\ text_trimmed with_skill.
Proof.
  split; [exact with_skill_reachable|].
  exact (text_stays_trimmed with_skill with_skill_reachable).
Defined.

